(** * framebuffer-go: the pixel surface of [framebuffer.go]

    A shallow embedding of package [framebuffer] (one file,
    [src/framebuffer.go]) together with the little of Go and of its
    [os], [image] and [image/color] packages that the file relies on,
    followed by the properties of the surface: pixel addressing, what
    [At] reads, the shape of the buffer, and what [Flush], [Close] and
    [Open] do with the device handle. *)

From Stdlib Require Import ZArith Lia String.
From Stdlib Require Import Strings.Byte.
From stdpp Require Import base list.

Local Open Scope Z_scope.

(* ===================================================================== *)
(** ** Go's machine integers                                              *)
(* ===================================================================== *)

(** Go's [int] is 32 or 64 bits wide, depending on the target; the XXX
    comment in [Open] is about the narrow case.  Everything below is
    parametric in the width. *)
Inductive intSize := Int32 | Int64.

Definition intBits (sz : intSize) : Z :=
  match sz with Int32 => 32 | Int64 => 64 end.

Definition maxInt (sz : intSize) : Z := 2 ^ (intBits sz - 1) - 1.
Definition minInt (sz : intSize) : Z := - 2 ^ (intBits sz - 1).

(** Two's complement wrap-around of a mathematical integer into [int]. *)
Definition wrap (sz : intSize) (z : Z) : Z :=
  (z + 2 ^ (intBits sz - 1)) mod 2 ^ intBits sz - 2 ^ (intBits sz - 1).

Definition int_add (sz : intSize) (a b : Z) : Z := wrap sz (a + b).
Definition int_mul (sz : intSize) (a b : Z) : Z := wrap sz (a * b).

(** [int(u)] for [u] of type [uint32] (C's [__u32]): zero-extend, then
    truncate to the width of [int]. *)
Definition int_of_uint32 (sz : intSize) (u : Z) : Z := wrap sz u.

Definition maxUint32 : Z := 2 ^ 32 - 1.

(** [uint8(v)] for [v] of type [uint32]: the low eight bits. *)
Definition uint8 (v : Z) : byte :=
  match Byte.of_N (Z.to_N (v mod 256)) with
  | Some b => b
  | None => "000"%byte
  end.

Definition byte_val (b : byte) : Z := Z.of_N (Byte.to_N b).

(** Length of a slice, as Go's [len]. *)
Definition len {A} (l : list A) : Z := Z.of_nat (length l).

(* ===================================================================== *)
(** ** Errors and run-time panics                                         *)
(* ===================================================================== *)

(** Values of Go's [error] interface that occur here: [errors.New],
    a [syscall.Errno], and [*fs.PathError] as package [os] wraps them. *)
Inductive error :=
| errorString (s : string)
| Errno (n : Z)
| PathError (op path : string) (err : error).

Inductive panic :=
| IndexOutOfRange (i n : Z)     (* index out of range [i] with length n *)
| MakeSliceLen.                 (* makeslice: len out of range *)

(** What a call that cannot change the surface comes to. *)
Inductive result (A : Type) :=
| Ok (a : A)
| Panicked (p : panic).
Arguments Ok {A} a.
Arguments Panicked {A} p.

(** [make([]byte, n)] for [n] of type [uint32]: [n] is converted to
    [int]; a negative length panics, otherwise the slice is zeroed. *)
Definition make_bytes (sz : intSize) (n : Z) : result (list byte) :=
  let l := int_of_uint32 sz n in
  if l <? 0 then Panicked MakeSliceLen
  else Ok (replicate (Z.to_nat l) "000"%byte).

(* ===================================================================== *)
(** ** Package image/color                                                *)
(* ===================================================================== *)

Module color.

(** [color.RGBA]: four 8-bit channels. *)
Record RGBA := mkRGBA { R : byte; G : byte; B : byte; A : byte }.

(** [color.RGBA64]: four 16-bit channels. *)
Record RGBA64 := mkRGBA64 { R16 : Z; G16 : Z; B16 : Z; A16 : Z }.

(** The interface [color.Color]: its one method [RGBA()] returns four
    [uint32] intensities. *)
Class Color (C : Type) := Color_RGBA : C -> Z * Z * Z * Z.

(** [func (c RGBA) RGBA()]: [r = uint32(c.R); r |= r << 8], and so on
    for the other channels. *)
Definition spread (c : byte) : Z :=
  let r := byte_val c in Z.lor r (Z.shiftl r 8).

#[global] Instance RGBA_Color : Color RGBA :=
  fun c => (spread (R c), spread (G c), spread (B c), spread (A c)).

(** [func (c RGBA64) RGBA()] returns the fields as they are. *)
#[global] Instance RGBA64_Color : Color RGBA64 :=
  fun c => (R16 c, G16 c, B16 c, A16 c).

Inductive Model := RGBAModel | RGBA64Model | NRGBAModel | GrayModel.

End color.

(* ===================================================================== *)
(** ** Package image                                                      *)
(* ===================================================================== *)

Module image.

Record Point := mkPoint { X : Z; Y : Z }.
Record Rectangle := mkRectangle { Min : Point; Max : Point }.

(** [func (p Point) In(r Rectangle) bool] *)
Definition In (p : Point) (r : Rectangle) : bool :=
  (X (Min r) <=? X p) && (X p <? X (Max r)) &&
  (Y (Min r) <=? Y p) && (Y p <? Y (Max r)).

End image.

(* ===================================================================== *)
(** ** Package os: a handle on the device                                 *)
(* ===================================================================== *)

(** The device behind the handle is Go's [os.File] over a descriptor that
    the set-up collaborator has opened.  The model keeps what the surface
    can observe of it: whether the descriptor was opened for appending,
    where the file ends, the write cursor, the chunks the device has
    taken (offset and bytes), and how the driver answers each call that
    reaches it.  A handle also records the calls made on it. *)
Module os.

(** The driver's answer to one call: it goes through, or it fails with
    an errno after [n] bytes were taken ([n] matters to a write only). *)
Inductive reply := Accept | Reject (n : nat) (errno : Z).

Inductive call :=
| CallSeek (offset whence : Z)
| CallWrite (b : list byte)
| CallClose.

(** The open descriptor, kernel side.  [replies] is consumed one answer
    per call; when it is empty every call goes through. *)
Record Desc := mkDesc {
  num : Z;
  append : bool;                       (* O_APPEND *)
  size : Z;                            (* where the file ends *)
  cursor : Z;
  received : list (Z * list byte);
  replies : list reply
}.

(** [os.File], Go side. *)
Record File := mkFile {
  desc : Desc;
  name : string;
  closed : bool;
  calls : list call
}.

Definition ErrInvalid : error := errorString "invalid argument".
Definition ErrClosed : error := errorString "file already closed".
Definition EINVAL : Z := 22.

(** [os.NewFile(fd, name)]: nil for a descriptor that is not valid. *)
Definition NewFile (d : Desc) (nm : string) : option File :=
  if num d <? 0 then None else Some (mkFile d nm false []).

Definition next_reply (d : Desc) : reply * Desc :=
  match replies d with
  | [] => (Accept, d)
  | r :: rs => (r, mkDesc (num d) (append d) (size d) (cursor d) (received d) rs)
  end.

Definition move (d : Desc) (pos : Z) : Desc :=
  mkDesc (num d) (append d) (size d) pos (received d) (replies d).

(** Where a write issued with the cursor at [pos] lands: at the end of
    the file on a descriptor opened for appending, at [pos] otherwise. *)
Definition lands (d : Desc) (pos : Z) : Z :=
  if append d then size d else pos.

(** The device takes [b] where the write lands; the cursor ends just
    past it, and the file grows when the write goes beyond its end. *)
Definition take_bytes (d : Desc) (b : list byte) : Desc :=
  let at_ := lands d (cursor d) in
  mkDesc (num d) (append d) (Z.max (size d) (at_ + len b)) (at_ + len b)
         (received d ++ [(at_, b)]) (replies d).

Definition called (f : File) (c : call) : File :=
  mkFile (desc f) (name f) (closed f) (calls f ++ [c]).

Definition on_desc (f : File) (d : Desc) : File :=
  mkFile d (name f) (closed f) (calls f).

(** [func (f *File) Seek(offset int64, whence int) (int64, error)].
    [whence] 0 is relative to the start, 1 to the cursor, 2 to the end
    of the file. *)
Definition Seek (fp : option File) (offset whence : Z)
  : (Z * option error) * option File :=
  match fp with
  | None => ((0, Some ErrInvalid), None)
  | Some f0 =>
    let f := called f0 (CallSeek offset whence) in
    if closed f then ((0, Some (PathError "seek" (name f) ErrClosed)), Some f)
    else
      let (r, d) := next_reply (desc f) in
      match r with
      | Reject _ e =>
          ((0, Some (PathError "seek" (name f) (Errno e))), Some (on_desc f d))
      | Accept =>
          let pos := if whence =? 0 then offset
                     else if whence =? 1 then cursor d + offset
                     else size d + offset in
          if (0 <=? pos) && ((whence =? 0) || (whence =? 1) || (whence =? 2))
          then ((pos, None), Some (on_desc f (move d pos)))
          else ((0, Some (PathError "seek" (name f) (Errno EINVAL))),
                Some (on_desc f d))
      end
  end.

(** [func (f *File) Write(b []byte) (n int, err error)]: a nil error
    means that all of [b] was taken.  The bytes go where [take_bytes]
    puts them: at the cursor, or at the end of the file when the
    descriptor appends. *)
Definition Write (fp : option File) (b : list byte)
  : (Z * option error) * option File :=
  match fp with
  | None => ((0, Some ErrInvalid), None)
  | Some f0 =>
    let f := called f0 (CallWrite b) in
    if closed f then ((0, Some (PathError "write" (name f) ErrClosed)), Some f)
    else
      let (r, d) := next_reply (desc f) in
      match r with
      | Reject n e =>
          let part := take n b in
          ((len part, Some (PathError "write" (name f) (Errno e))),
           Some (on_desc f (take_bytes d part)))
      | Accept =>
          ((len b, None), Some (on_desc f (take_bytes d b)))
      end
  end.

(** [func (f *File) Close() error] *)
Definition Close (fp : option File) : option error * option File :=
  match fp with
  | None => (Some ErrInvalid, None)
  | Some f0 =>
    let f := called f0 CallClose in
    if closed f then (Some (PathError "close" (name f) ErrClosed), Some f)
    else
      let (r, d) := next_reply (desc f) in
      let f' := mkFile d (name f) true (calls f) in
      match r with
      | Reject _ e => (Some (PathError "close" (name f) (Errno e)), Some f')
      | Accept => (None, Some f')
      end
  end.

End os.

(* ===================================================================== *)
(** ** Package framebuffer                                                *)
(* ===================================================================== *)

Definition InitErr : error := errorString "Error initializing framebuffer".

Definition red : Z := 2.
Definition green : Z := 1.
Definition blue : Z := 0.
Definition x : Z := 3. (* not sure what this does, but there's a slot for it. *)

Definition colorBytes : Z := 4.

(** [type FrameBuffer struct].  The handle is owned by the surface alone
    (the field is not exported and [Open] makes the only reference), so
    the state of the [*os.File] is kept in the record. *)
Record FrameBuffer := mkFrameBuffer {
  buf : list byte;
  h : Z;
  w : Z;
  file : option os.File
}.

(** *** Methods run against the surface

    A method has a pointer receiver: it reads and updates the surface and
    either returns or panics; the surface as the panic leaves it stays
    observable. *)
Inductive outcome (A : Type) :=
| Return (a : A) (fb : FrameBuffer)
| Panic (p : panic) (fb : FrameBuffer).
Arguments Return {A} a fb.
Arguments Panic {A} p fb.

Definition M (A : Type) : Type := FrameBuffer -> outcome A.

Definition ret {A} (a : A) : M A := fun fb => Return a fb.

Definition bind {A B} (m : M A) (k : A -> M B) : M B :=
  fun fb =>
    match m fb with
    | Return a fb' => k a fb'
    | Panic p fb' => Panic p fb'
    end.

Notation "v <- m ;; k" := (bind m (fun v => k))
  (at level 100, m at next level, right associativity).
Notation "m ;;; k" := (bind m (fun _ => k))
  (at level 100, right associativity).

(** Reading a field or a pure method of the receiver. *)
Definition gets {A} (f : FrameBuffer -> A) : M A := fun fb => Return (f fb) fb.

(** The surface after a call, whichever way the call ended. *)
Definition after {A} (o : outcome A) : FrameBuffer :=
  match o with Return _ fb => fb | Panic _ fb => fb end.

(** [fb.buf[i]] as an operand: bounds-checked. *)
Definition index (i : Z) : M byte :=
  fun fb =>
    match (if 0 <=? i then buf fb !! Z.to_nat i else None) with
    | Some b => Return b fb
    | None => Panic (IndexOutOfRange i (len (buf fb))) fb
    end.

(** [fb.buf[i] = v]: bounds-checked, in place. *)
Definition store (i : Z) (v : byte) : M unit :=
  fun fb =>
    if (0 <=? i) && (i <? len (buf fb))
    then Return tt (mkFrameBuffer (<[Z.to_nat i := v]> (buf fb)) (h fb) (w fb) (file fb))
    else Panic (IndexOutOfRange i (len (buf fb))) fb.

(** A call on [fb.file]: the handle is updated in place. *)
Definition on_file {A} (op : option os.File -> A * option os.File) : M A :=
  fun fb =>
    let (a, f') := op (file fb) in
    Return a (mkFrameBuffer (buf fb) (h fb) (w fb) f').

(** Modelled from the spec: [fb.h] is not under src/.  The set-up
    collaborator [initfb] fills an [fb_info_t] and returns a status; the
    fields are the ones [Open] reads (total memory size, horizontal and
    vertical resolution as [uint32], and the open descriptor). *)
Record fb_fix_screeninfo := mk_fix { smem_len : Z }.
Record fb_var_screeninfo := mk_var { xres : Z; yres : Z }.
Record fb_info_t := mk_info {
  fd : os.Desc;
  fix_info : fb_fix_screeninfo;
  var_info : fb_var_screeninfo
}.

Definition is_uint32 (v : Z) : Prop := 0 <= v <= maxUint32.

Section Methods.

(** The width of [int] on the target. *)
Variable sz : intSize.

Definition ColorModel (fb : FrameBuffer) : color.Model := color.RGBAModel.

Definition Bounds (fb : FrameBuffer) : image.Rectangle :=
  image.mkRectangle (image.mkPoint 0 0) (image.mkPoint (w fb) (h fb)).

Definition getPixelStart (fb : FrameBuffer) (x y : Z) : Z :=
  int_mul sz (int_add sz (int_mul sz y (w fb)) x) colorBytes.

Definition At (x y : Z) : M color.RGBA :=
  pixelStart <- gets (fun fb => getPixelStart fb x y) ;;
  r <- index (int_add sz pixelStart red) ;;
  g <- index (int_add sz pixelStart green) ;;
  b <- index (int_add sz pixelStart blue) ;;
  ret (color.mkRGBA r g b "000"%byte).

(** Lines 73-75, the body of [WritePixel]: three stores relative to
    [pixelStart].  The function as committed does not bind that name
    (only [Set] has a local of that name), so it does not compile;
    the name is a parameter here, and whatever is proved of the stores
    holds for every value it could stand for. *)
Definition WritePixel_stores (pixelStart : Z) (r g b : byte) : M unit :=
  store (int_add sz pixelStart red) r ;;;
  store (int_add sz pixelStart green) g ;;;
  store (int_add sz pixelStart blue) b.

(** [func (fb *FrameBuffer) WritePixel(x, y int, r, g, b uint8)]: the
    body does not use [x] and [y]. *)
Definition WritePixel (pixelStart : Z) (x y : Z) (r g b : byte) : M unit :=
  WritePixel_stores pixelStart r g b.

(** [func (fb *FrameBuffer) Set(x, y int, c color.Color)] as committed:
    it binds its own [pixelStart], which it does not use, and calls
    [WritePixel] with the three channel bytes and no coordinates (three
    arguments for five parameters, so the call does not compile).  The
    three bytes go to the stores; [callee] is what [pixelStart] stands
    for there. *)
Definition Set_ {C} `{color.Color C} (callee : Z) (x y : Z) (c : C) : M unit :=
  pixelStart <- gets (fun fb => getPixelStart fb x y) ;;
  let '(r, g, b, _) := color.Color_RGBA c in
  WritePixel_stores callee (uint8 r) (uint8 g) (uint8 b).

(** Sync changes to video memory. *)
Definition Flush : M (option error) :=
  on_file (fun f => os.Seek f 0 0) ;;;
  b <- gets buf ;;
  r <- on_file (fun f => os.Write f b) ;;
  ret (snd r).

(** Closes the framebuffer. *)
Definition Close : M (option error) := on_file os.Close.

(** Opens the framebuffer with device node located at [filename].
    [initfb] is the C collaborator: status and filled [fb_info_t]. *)
Definition Open (initfb : string -> Z * fb_info_t) (filename : string)
  : result (option FrameBuffer * option error) :=
  let (cErr, info) := initfb filename in
  if negb (cErr =? 0) then Ok (None, Some InitErr)
  else
    match make_bytes sz (smem_len (fix_info info)) with
    | Panicked p => Panicked p
    | Ok b =>
        Ok (Some (mkFrameBuffer b
                    (int_of_uint32 sz (yres (var_info info)))
                    (int_of_uint32 sz (xres (var_info info)))
                    (os.NewFile (fd info) filename)),
            None)
    end.

(** *** Clients

    One operation of the public surface, and a client as a sequence of
    them.  A client that recovers from a panic goes on with the surface
    as the panic left it.  A call of [Set] or [WritePixel] carries the
    value that the unbound [pixelStart] of the stores has in that call. *)
Inductive op :=
| CallColorModel
| CallBounds
| CallAt (x y : Z)
| CallSet {C : Type} `{color.Color C} (pixelStart : Z) (x y : Z) (c : C)
| CallWritePixel (pixelStart : Z) (x y : Z) (r g b : byte)
| CallFlush
| CallClose.

Definition step (fb : FrameBuffer) (o : op) : FrameBuffer :=
  match o with
  | CallColorModel => fb
  | CallBounds => fb
  | CallAt x y => after (At x y fb)
  | CallSet p x y c => after (Set_ p x y c fb)
  | CallWritePixel p x y r g b => after (WritePixel p x y r g b fb)
  | CallFlush => after (Flush fb)
  | CallClose => after (Close fb)
  end.

Definition run (ops : list op) (fb : FrameBuffer) : FrameBuffer :=
  fold_left step ops fb.

(** *** Well-formed surfaces *)

(** (x, y) lies within [Bounds()]. *)
Definition inBounds (fb : FrameBuffer) (x y : Z) : Prop :=
  image.In (image.mkPoint x y) (Bounds fb) = true.

(** The buffer is a Go slice with room for every pixel of the bounds. *)
Definition covers (fb : FrameBuffer) : Prop :=
  w fb * h fb * colorBytes <= len (buf fb) <= maxInt sz.

(** The invariant of the data model. *)
Definition shape (fb : FrameBuffer) : Prop :=
  len (buf fb) = w fb * h fb * colorBytes.

End Methods.

Arguments CallSet {C _} pixelStart x y c.

(** The addressing formula of the data model, over the integers. *)
Definition offset (fb : FrameBuffer) (x y : Z) : Z :=
  (y * w fb + x) * colorBytes.

(** The byte of the buffer at an offset, if there is one. *)
Definition byte_at (fb : FrameBuffer) (i : Z) : option byte :=
  if 0 <=? i then buf fb !! Z.to_nat i else None.


(** The driver lets the [k]-th call from now through. *)
Definition accepting (d : os.Desc) (k : nat) : Prop :=
  match os.replies d !! k with
  | Some (os.Reject _ _) => False
  | _ => True
  end.

(** *** Sample devices

    A 2 by 2 display of 16 bytes on descriptor 3, not opened for
    appending, as a collaborator would report it, driven by the answers
    [rs]. *)
Definition sample_desc (rs : list os.reply) : os.Desc :=
  os.mkDesc 3 false 16 0 [] rs.

Definition sample_initfb (rs : list os.reply) (size xr yr : Z)
  : string -> Z * fb_info_t :=
  fun _ => (0, mk_info (sample_desc rs) (mk_fix size) (mk_var xr yr)).

(** A collaborator that fails with [status]. *)
Definition failing_initfb (status : Z) : string -> Z * fb_info_t :=
  fun _ => (status, mk_info (sample_desc []) (mk_fix 0) (mk_var 0 0)).

Definition sample_file (rs : list os.reply) : os.File :=
  os.mkFile (sample_desc rs) "/dev/fb0" false [].

Definition sample_fb (rs : list os.reply) : FrameBuffer :=
  mkFrameBuffer (replicate 16 "000"%byte) 2 2 (Some (sample_file rs)).

(** A method keeps the length of the buffer and the dimensions, however
    it ends. *)
Definition keeps_dims {A} (m : M A) : Prop :=
  forall fb,
    len (buf (after (m fb))) = len (buf fb) /\
    w (after (m fb)) = w fb /\ h (after (m fb)) = h fb.

(** A value of C's [__u32] that [int] of the target can hold. *)
Definition fits (sz : intSize) (v : Z) : Prop := is_uint32 v /\ v <= maxInt sz.

(** The three colour bytes of the pixel that [getPixelStart] gives for
    (x, y) lie within the buffer. *)
Definition addressable (sz : intSize) (fb : FrameBuffer) (x y : Z) : Prop :=
  0 <= getPixelStart sz fb x y /\ getPixelStart sz fb x y + 2 < len (buf fb).

(** An operation that is neither [Flush] nor [Close]. *)
Definition no_io (o : op) : bool :=
  match o with
  | CallFlush | CallClose => false
  | _ => true
  end.

(** The sample surface after [Close]. *)
Definition closed_fb : FrameBuffer :=
  mkFrameBuffer (replicate 16 "000"%byte) 2 2
    (Some (os.mkFile (sample_desc []) "/dev/fb0" true [os.CallClose])).

(** A regular file of 100 bytes opened for appending, behind a 2 by 2
    surface. *)
Definition appending_file : os.File :=
  os.mkFile (os.mkDesc 3 true 100 0 [] []) "/tmp/fb.img" false [].

Definition appending_fb : FrameBuffer :=
  mkFrameBuffer (replicate 16 "000"%byte) 2 2 (Some appending_file).

(** A method leaves the handle alone, however it ends. *)
Definition keeps_file {A} (m : M A) : Prop :=
  forall fb, file (after (m fb)) = file fb.

(** A collaborator that reports success with descriptor -1. *)
Definition bad_fd_initfb : string -> Z * fb_info_t :=
  fun _ => (0, mk_info (os.mkDesc (-1) false 16 0 [] []) (mk_fix 16) (mk_var 2 2)).

(* ===================================================================== *)
(** ** Integers, bytes and addressing *)
(* ===================================================================== *)

Lemma wrap_small sz z : minInt sz <= z <= maxInt sz -> wrap sz z = z.
Proof.
  unfold wrap, minInt, maxInt. intros H.
  destruct sz; simpl intBits in *.
  - rewrite Z.mod_small; lia.
  - rewrite Z.mod_small; lia.
Qed.

Lemma maxInt_pos sz : 0 < maxInt sz.
Proof. destruct sz; unfold maxInt; simpl intBits; lia. Qed.

Lemma minInt_neg sz : minInt sz < 0.
Proof. destruct sz; unfold minInt; simpl intBits; lia. Qed.

Lemma inBounds_iff fb x y :
  inBounds fb x y <-> 0 <= x < w fb /\ 0 <= y < h fb.
Proof.
  unfold inBounds, image.In, Bounds. simpl.
  rewrite !andb_true_iff, !Z.leb_le, !Z.ltb_lt. lia.
Qed.

Section Addressing.
Variable sz : intSize.
Variable fb : FrameBuffer.
Variables x y : Z.
Hypothesis Hcov : covers sz fb.
Hypothesis Hin : inBounds fb x y.

Lemma offset_range : 0 <= offset fb x y /\ offset fb x y + colorBytes <= len (buf fb).
Proof.
  apply inBounds_iff in Hin. destruct Hcov as [Hc _].
  unfold offset, colorBytes in *. nia.
Qed.

Lemma getPixelStart_offset : getPixelStart sz fb x y = offset fb x y.
Proof.
  pose proof offset_range as [H0 H1].
  apply inBounds_iff in Hin. destruct Hcov as [Hc Hm].
  pose proof (minInt_neg sz).
  unfold getPixelStart, int_mul, int_add, offset, colorBytes in *.
  rewrite (wrap_small sz (y * w fb)) by nia.
  rewrite (wrap_small sz (y * w fb + x)) by nia.
  apply wrap_small. nia.
Qed.

End Addressing.

Lemma byte_at_Some fb i : 0 <= i < len (buf fb) -> is_Some (byte_at fb i).
Proof.
  intros [H0 H1]. unfold byte_at.
  destruct (Z.leb_spec 0 i); [|lia].
  apply lookup_lt_is_Some. unfold len in H1. lia.
Qed.

Lemma index_byte_at fb i b : byte_at fb i = Some b -> index i fb = Return b fb.
Proof. unfold index, byte_at. intros ->. reflexivity. Qed.

Lemma len_insert (l : list byte) i v : len (<[i := v]> l) = len l.
Proof. unfold len. now rewrite length_insert. Qed.

Lemma uint8_val v : byte_val (uint8 v) = v mod 256.
Proof.
  unfold byte_val, uint8.
  assert (Hr : 0 <= v mod 256 < 256) by (apply Z.mod_pos_bound; lia).
  destruct (Byte.of_N (Z.to_N (v mod 256))) as [b|] eqn:E.
  - apply Byte.to_of_N in E. rewrite E. lia.
  - exfalso. apply Byte.of_N_None_iff in E. lia.
Qed.

(* ===================================================================== *)
(** ** Pixel reads *)
(* ===================================================================== *)

Lemma uint8_spread c : uint8 (color.spread c) = c.
Proof. destruct c; reflexivity. Qed.


Lemma offset_apart fb x y x' y' k j :
  inBounds fb x y -> inBounds fb x' y' -> (x', y') <> (x, y) ->
  0 <= k < colorBytes -> 0 <= j < colorBytes ->
  offset fb x' y' + k <> offset fb x y + j.
Proof.
  rewrite !inBounds_iff. unfold offset, colorBytes. intros Hxy Hxy' Hne Hk Hj E.
  assert (Hlin : y' * w fb + x' = y * w fb + x) by lia.
  assert (Hy : y' = y) by nia.
  subst y'. assert (x' = x) by lia. subst x'. now apply Hne.
Qed.



(* ===================================================================== *)
(** ** The device handle and Flush *)
(* ===================================================================== *)

Example sample_fb_opened rs :
  Open Int64 (sample_initfb rs 16 2 2) "/dev/fb0" = Ok (Some (sample_fb rs), None).
Proof. reflexivity. Qed.

Lemma accepting_tail d r rs k :
  os.replies d = r :: rs ->
  accepting d (S k) ->
  accepting (os.mkDesc (os.num d) (os.append d) (os.size d) (os.cursor d)
               (os.received d) rs) k.
Proof. unfold accepting. intros ->. simpl. auto. Qed.

Lemma Seek_open f :
  exists r f1,
    os.Seek (Some f) 0 0 = (r, Some f1) /\
    os.calls f1 = os.calls f ++ [os.CallSeek 0 0] /\
    os.closed f1 = os.closed f /\
    os.received (os.desc f1) = os.received (os.desc f) /\
    (os.closed f = false -> accepting (os.desc f) 0 ->
       snd r = None /\ os.cursor (os.desc f1) = 0) /\
    (os.closed f = false -> forall k, accepting (os.desc f) (S k) -> accepting (os.desc f1) k) /\
    (forall pos, os.lands (os.desc f1) pos = os.lands (os.desc f) pos).
Proof.
  destruct f as [[n ap sz0 cur rec rs] nm cl cs]. unfold os.Seek. simpl.
  destruct cl.
  { eexists; eexists. split; [reflexivity|]. simpl. repeat split; discriminate. }
  unfold os.next_reply. simpl.
  destruct rs as [|[|m e] rs]; simpl;
    (eexists; eexists; split; [reflexivity|]; simpl; repeat split; auto).
  all: unfold accepting in *; simpl in *; try tauto.
Qed.

Lemma take_len_all (b : list byte) : take (length b) b = b.
Proof. apply firstn_all. Qed.

Lemma Write_open f b :
  exists r f2,
    os.Write (Some f) b = (r, Some f2) /\
    os.calls f2 = os.calls f ++ [os.CallWrite b] /\
    os.closed f2 = os.closed f /\
    (os.closed f = false ->
       exists k, os.received (os.desc f2)
                 = os.received (os.desc f)
                   ++ [(os.lands (os.desc f) (os.cursor (os.desc f)), take k b)]) /\
    (os.closed f = false -> accepting (os.desc f) 0 ->
       r = (len b, None) /\
       os.received (os.desc f2)
       = os.received (os.desc f)
         ++ [(os.lands (os.desc f) (os.cursor (os.desc f)), b)] /\
       os.cursor (os.desc f2)
       = os.lands (os.desc f) (os.cursor (os.desc f)) + len b).
Proof.
  destruct f as [[n ap sz0 cur rec rs] nm cl cs]. unfold os.Write. simpl.
  destruct cl.
  { eexists; eexists. split; [reflexivity|]. simpl. repeat split; discriminate. }
  unfold os.next_reply. simpl.
  destruct rs as [|[|m e] rs]; simpl;
    (eexists; eexists; split; [reflexivity|]; simpl; repeat split; auto).
  all: unfold accepting in *; simpl in *; try tauto.
  - exists (length b). now rewrite take_len_all.
  - exists (length b). now rewrite take_len_all.
  - now exists m.
Qed.

Lemma Flush_unfold fb :
  Flush fb =
  Return (snd (fst (os.Write (snd (os.Seek (file fb) 0 0)) (buf fb))))
         (mkFrameBuffer (buf fb) (h fb) (w fb)
            (snd (os.Write (snd (os.Seek (file fb) 0 0)) (buf fb)))).
Proof.
  unfold Flush, bind, on_file, gets, ret.
  destruct (os.Seek (file fb) 0 0) as [a f1]. simpl.
  destruct (os.Write f1 (buf fb)) as [r f2]. reflexivity.
Qed.

(** What one [Flush] on an open handle asks of it and, when the driver
    lets the seek through, what the device gets and where: at offset 0,
    or at the end of the file when the descriptor appends. *)
Lemma Flush_open fb f :
  file fb = Some f ->
  exists f2,
    file (after (Flush fb)) = Some f2 /\
    os.calls f2 = os.calls f ++ [os.CallSeek 0 0; os.CallWrite (buf fb)] /\
    os.closed f2 = os.closed f /\
    (os.closed f = false -> accepting (os.desc f) 0 ->
       exists k, os.received (os.desc f2)
                 = os.received (os.desc f)
                   ++ [(os.lands (os.desc f) 0, take k (buf fb))]) /\
    (os.closed f = false -> accepting (os.desc f) 0 -> accepting (os.desc f) 1 ->
       Flush fb = Return None (mkFrameBuffer (buf fb) (h fb) (w fb) (Some f2)) /\
       os.received (os.desc f2)
       = os.received (os.desc f) ++ [(os.lands (os.desc f) 0, buf fb)] /\
       os.cursor (os.desc f2) = os.lands (os.desc f) 0 + len (buf fb)).
Proof.
  intros Hf. rewrite Flush_unfold, Hf.
  destruct (Seek_open f) as (r1 & f1 & E1 & C1 & Cl1 & R1 & A1 & T1 & L1).
  rewrite E1. cbn [snd fst after file].
  destruct (Write_open f1 (buf fb)) as (r2 & f2 & E2 & C2 & Cl2 & P2 & A2).
  rewrite E2. cbn [snd fst after file]. exists f2.
  split; [reflexivity|]. split; [|split; [|split]].
  - rewrite C2, C1, <- app_assoc. reflexivity.
  - congruence.
  - intros Ho Ha. destruct (A1 Ho Ha) as [_ Hc].
    destruct P2 as [k Hk]; [congruence|]. exists k. now rewrite Hk, R1, Hc, L1.
  - intros Ho Ha0 Ha1. destruct (A1 Ho Ha0) as [_ Hc].
    destruct A2 as (-> & Hrec & Hcur); [congruence | now apply T1 |].
    simpl. rewrite Hrec, Hcur, R1, Hc, L1. auto.
Qed.

Lemma Flush_keeps_buf fb : buf (after (Flush fb)) = buf fb.
Proof. rewrite Flush_unfold. reflexivity. Qed.

(** Two [Flush] calls in a row ask the handle for the same two calls
    twice: the writes carry the same bytes. *)
Lemma Flush_twice_calls fb f :
  file fb = Some f ->
  exists f2,
    file (after (Flush (after (Flush fb)))) = Some f2 /\
    os.calls f2 = os.calls f ++ [os.CallSeek 0 0; os.CallWrite (buf fb);
                                 os.CallSeek 0 0; os.CallWrite (buf fb)].
Proof.
  intros Hf.
  destruct (Flush_open fb f Hf) as (f1 & Hf1 & Hc1 & _).
  destruct (Flush_open (after (Flush fb)) f1 Hf1) as (f2 & Hf2 & Hc2 & _).
  exists f2. split; [exact Hf2|].
  rewrite Hc2, Hc1, Flush_keeps_buf, <- app_assoc. reflexivity.
Qed.

(** C10.  [Flush] returns exactly what the write of the buffer on the
    handle as the seek left it returns, whatever the seek itself
    returned: it reports success if and only if that write reports
    success; and there is a surface on which the seek fails and [Flush]
    reports success all the same. *)
Theorem Flush_reports_write_only fb :
  Flush fb =
    Return (snd (fst (os.Write (snd (os.Seek (file fb) 0 0)) (buf fb))))
           (mkFrameBuffer (buf fb) (h fb) (w fb)
              (snd (os.Write (snd (os.Seek (file fb) 0 0)) (buf fb)))) /\
  ((exists fb', Flush fb = Return None fb') <->
   snd (fst (os.Write (snd (os.Seek (file fb) 0 0)) (buf fb))) = None) /\
  (exists fb0 e fb0',
      snd (fst (os.Seek (file fb0) 0 0)) = Some e /\
      Flush fb0 = Return None fb0').
Proof.
  split; [apply Flush_unfold|]. split.
  - rewrite Flush_unfold. split.
    + intros [fb' E]. now inversion E.
    + intros ->. eexists. reflexivity.
  - exists (sample_fb [os.Reject 0 29]). eexists. eexists.
    split; reflexivity.
Qed.

(** C6.  When the write of the buffer fails with error [e], [Flush]
    returns [e] and leaves buffer, height and width as they were.  A
    second [Flush] on that surface again asks the handle for a seek to
    offset 0 and then for a write of the same whole buffer, however many
    bytes the failed write had got through; if the driver lets that seek
    through, the device takes the bytes where a write at offset 0 lands
    (offset 0, unless the descriptor appends), and if it lets the write
    through as well, the second [Flush] succeeds and the device has
    taken the whole buffer there. *)
Theorem Flush_write_failure fb n e f' :
  os.Write (snd (os.Seek (file fb) 0 0)) (buf fb) = ((n, Some e), f') ->
  let fb' := mkFrameBuffer (buf fb) (h fb) (w fb) f' in
  Flush fb = Return (Some e) fb' /\
  (forall f1, f' = Some f1 ->
     exists f2,
       file (after (Flush fb')) = Some f2 /\
       os.calls f2 = os.calls f1 ++ [os.CallSeek 0 0; os.CallWrite (buf fb)] /\
       (os.closed f1 = false -> accepting (os.desc f1) 0 ->
          exists k, os.received (os.desc f2)
                    = os.received (os.desc f1)
                      ++ [(os.lands (os.desc f1) 0, take k (buf fb))]) /\
       (os.closed f1 = false -> accepting (os.desc f1) 0 ->
        accepting (os.desc f1) 1 ->
          Flush fb' = Return None (mkFrameBuffer (buf fb) (h fb) (w fb) (Some f2)) /\
          os.received (os.desc f2)
          = os.received (os.desc f1) ++ [(os.lands (os.desc f1) 0, buf fb)])).
Proof.
  intros Hw fb'. split.
  - rewrite Flush_unfold, Hw. reflexivity.
  - intros f1 ->.
    destruct (Flush_open fb' f1 eq_refl) as (f2 & Hf2 & Hc & _ & Hs & Ha).
    exists f2. repeat split; auto.
    + now apply Ha.
    + now apply Ha.
Qed.

(** C5.  A handle that cannot seek (errno 29) but takes writes: both
    [Flush] calls succeed, and the device gets the buffer of the second
    one at offset 16, where the first write left the cursor, not at
    offset 0. *)
Theorem Flush_success_after_failed_seek :
  let fb0 := sample_fb [os.Reject 0 29; os.Accept; os.Reject 0 29; os.Accept] in
  exists fb1 fb2 f2,
    Flush fb0 = Return None fb1 /\
    Flush fb1 = Return None fb2 /\
    buf fb1 = buf fb0 /\
    file fb2 = Some f2 /\
    os.received (os.desc f2) = [(0, buf fb0); (16, buf fb0)].
Proof. simpl. do 3 eexists. repeat split; reflexivity. Qed.

(* ===================================================================== *)
(** ** The shape of the surface, and Open *)
(* ===================================================================== *)

Create HintDb dims.

Lemma keeps_ret {A} (a : A) : keeps_dims (ret a).
Proof. intros fb. auto. Qed.

Lemma keeps_gets {A} (f : FrameBuffer -> A) : keeps_dims (gets f).
Proof. intros fb. auto. Qed.

Lemma keeps_index i : keeps_dims (index i).
Proof.
  intros fb. unfold index.
  destruct (if 0 <=? i then buf fb !! Z.to_nat i else None); auto.
Qed.

Lemma keeps_store i v : keeps_dims (store i v).
Proof.
  intros fb. unfold store.
  destruct ((0 <=? i) && (i <? len (buf fb))); simpl; auto using len_insert.
Qed.

Lemma keeps_on_file {A} (op : option os.File -> A * option os.File) :
  keeps_dims (on_file op).
Proof. intros fb. unfold on_file. destruct (op (file fb)). auto. Qed.

Lemma keeps_bind {A B} (m : M A) (k : A -> M B) :
  keeps_dims m -> (forall a, keeps_dims (k a)) -> keeps_dims (bind m k).
Proof.
  intros Hm Hk fb. unfold bind. specialize (Hm fb).
  destruct (m fb) as [a fb1|p fb1]; simpl in Hm.
  - destruct (Hk a fb1) as (E1 & E2 & E3). rewrite E1, E2, E3. exact Hm.
  - exact Hm.
Qed.

#[local] Hint Resolve keeps_ret keeps_gets keeps_index keeps_store
  keeps_on_file keeps_bind : dims.

Lemma keeps_At sz x y : keeps_dims (At sz x y).
Proof. unfold At. auto 10 with dims. Qed.

Lemma keeps_WritePixel sz p x y r g b : keeps_dims (WritePixel sz p x y r g b).
Proof. unfold WritePixel, WritePixel_stores. auto 10 with dims. Qed.

Lemma keeps_Set sz p x y {C} `{color.Color C} (c : C) : keeps_dims (Set_ sz p x y c).
Proof.
  unfold Set_. apply keeps_bind; [auto with dims|]. intros _.
  destruct (color.Color_RGBA c) as [[[r g] b] a].
  unfold WritePixel_stores. auto 10 with dims.
Qed.

Lemma keeps_Flush : keeps_dims Flush.
Proof. unfold Flush. auto 10 with dims. Qed.

Lemma keeps_Close : keeps_dims Close.
Proof. unfold Close. auto with dims. Qed.

Lemma step_dims sz fb o :
  len (buf (step sz fb o)) = len (buf fb) /\
  w (step sz fb o) = w fb /\ h (step sz fb o) = h fb.
Proof.
  destruct o; cbn [step]; auto.
  - apply keeps_At.
  - apply keeps_Set.
  - apply keeps_WritePixel.
  - apply keeps_Flush.
  - apply keeps_Close.
Qed.

Lemma run_dims sz ops : forall fb,
  len (buf (run sz ops fb)) = len (buf fb) /\
  w (run sz ops fb) = w fb /\ h (run sz ops fb) = h fb.
Proof.
  unfold run. induction ops as [|o ops IH]; intros fb; simpl; [auto|].
  destruct (IH (step sz fb o)) as (E1 & E2 & E3).
  destruct (step_dims sz fb o) as (S1 & S2 & S3).
  rewrite E1, E2, E3. auto.
Qed.

Lemma int_of_uint32_nonneg sz u :
  is_uint32 u -> 0 <= int_of_uint32 sz u -> int_of_uint32 sz u = u.
Proof.
  unfold is_uint32, maxUint32, int_of_uint32, wrap. intros Hu.
  destruct sz; simpl intBits.
  - intros H0. destruct (Z_lt_le_dec u (2 ^ 31)) as [Hs|Hb].
    + rewrite Z.mod_small; lia.
    + exfalso. revert H0.
      replace (u + 2 ^ (32 - 1)) with ((u - 2 ^ 31) + 1 * 2 ^ 32) by lia.
      rewrite Z.mod_add by lia. rewrite Z.mod_small; lia.
  - intros _. rewrite Z.mod_small; lia.
Qed.

Lemma int_of_uint32_fits sz u : fits sz u -> int_of_uint32 sz u = u.
Proof.
  intros [[H0 H1] H2]. apply wrap_small. pose proof (minInt_neg sz). lia.
Qed.

Lemma len_replicate (n : Z) (b : byte) : 0 <= n -> len (replicate (Z.to_nat n) b) = n.
Proof. intros H. unfold len. rewrite length_replicate. lia. Qed.

Lemma Open_inv sz initfb filename fb0 e :
  Open sz initfb filename = Ok (Some fb0, e) ->
  let info := snd (initfb filename) in
  0 <= int_of_uint32 sz (smem_len (fix_info info)) /\
  fb0 = mkFrameBuffer
          (replicate (Z.to_nat (int_of_uint32 sz (smem_len (fix_info info)))) "000"%byte)
          (int_of_uint32 sz (yres (var_info info)))
          (int_of_uint32 sz (xres (var_info info)))
          (os.NewFile (fd info) filename).
Proof.
  unfold Open, make_bytes. destruct (initfb filename) as [cErr info]. simpl.
  destruct (negb (cErr =? 0)); [discriminate|].
  destruct (Z.ltb_spec (int_of_uint32 sz (smem_len (fix_info info))) 0); [discriminate|].
  intros E. inversion E. auto.
Qed.

(** C4.  For a surface [fb0] that [Open] has returned, the length of the
    buffer is the memory size the collaborator reported (not width *
    height * 4), and after any sequence of operations, panics recovered,
    length, width and height are those of [fb0]; so length = width *
    height * 4 holds at all times exactly when the reported size is that
    product. *)
Theorem opened_surface_shape sz initfb filename fb0 (ops : list op) :
  is_uint32 (smem_len (fix_info (snd (initfb filename)))) ->
  Open sz initfb filename = Ok (Some fb0, None) ->
  let size := smem_len (fix_info (snd (initfb filename))) in
  let fb := run sz ops fb0 in
  len (buf fb0) = size /\
  len (buf fb) = size /\ w fb = w fb0 /\ h fb = h fb0 /\
  (shape fb <-> size = w fb0 * h fb0 * colorBytes).
Proof.
  intros Hu HO size fb.
  destruct (Open_inv _ _ _ _ _ HO) as [Hnn Hfb].
  assert (Hlen : len (buf fb0) = size).
  { rewrite Hfb. simpl buf. rewrite len_replicate by assumption.
    now apply int_of_uint32_nonneg. }
  destruct (run_dims sz ops fb0) as (E1 & E2 & E3). fold fb in E1, E2, E3.
  unfold shape. rewrite E1, E2, E3, Hlen. tauto.
Qed.

(** C4, as stated, fails: a 2 by 2 display whose driver reports 32 bytes
    of memory (two pages of 16) opens with a buffer of 32 bytes. *)
Lemma Open_does_not_establish_shape :
  exists fb,
    Open Int64 (sample_initfb [] 32 2 2) "/dev/fb0" = Ok (Some fb, None) /\
    len (buf fb) = 32 /\ w fb * h fb * 4 = 16 /\ ~ shape fb.
Proof.
  eexists. split; [reflexivity|]. repeat split. unfold shape. simpl. discriminate.
Qed.

Lemma fits_Int64 v : is_uint32 v -> fits Int64 v.
Proof. unfold fits, is_uint32, maxUint32, maxInt. simpl. lia. Qed.

Lemma Open_fits sz initfb filename info :
  initfb filename = (0, info) ->
  fits sz (smem_len (fix_info info)) ->
  fits sz (xres (var_info info)) ->
  fits sz (yres (var_info info)) ->
  Open sz initfb filename =
    Ok (Some (mkFrameBuffer
                (replicate (Z.to_nat (smem_len (fix_info info))) "000"%byte)
                (yres (var_info info)) (xres (var_info info))
                (os.NewFile (fd info) filename)),
        None).
Proof.
  intros Hi Hs Hx Hy. unfold Open, make_bytes. rewrite Hi. simpl.
  rewrite (int_of_uint32_fits sz _ Hs), (int_of_uint32_fits sz _ Hx),
          (int_of_uint32_fits sz _ Hy).
  destruct Hs as [[Hs0 _] _].
  destruct (Z.ltb_spec (smem_len (fix_info info)) 0); [lia|]. reflexivity.
Qed.

(** Where [int] is 64 bits wide every report of a successful set-up
    opens, with the dimensions and the size as reported. *)
Corollary Open_Int64 initfb filename info :
  initfb filename = (0, info) ->
  is_uint32 (smem_len (fix_info info)) ->
  is_uint32 (xres (var_info info)) ->
  is_uint32 (yres (var_info info)) ->
  exists fb,
    Open Int64 initfb filename = Ok (Some fb, None) /\
    w fb = xres (var_info info) /\ h fb = yres (var_info info) /\
    len (buf fb) = smem_len (fix_info info).
Proof.
  intros Hi Hs Hx Hy. eexists. split.
  - apply (Open_fits Int64 initfb filename info Hi); now apply fits_Int64.
  - simpl. repeat split. apply len_replicate. apply Hs.
Qed.

(** C7.  When the collaborator returns status 0 and the reported size and
    resolution are values that [int] of the target can hold, [Open]
    returns a surface (and no error) whose width and height are the
    reported resolution, whose buffer has the reported size and holds
    zero bytes only, and whose handle wraps the reported descriptor. *)
Theorem Open_success sz initfb filename info :
  initfb filename = (0, info) ->
  fits sz (smem_len (fix_info info)) ->
  fits sz (xres (var_info info)) ->
  fits sz (yres (var_info info)) ->
  exists fb,
    Open sz initfb filename = Ok (Some fb, None) /\
    w fb = xres (var_info info) /\
    h fb = yres (var_info info) /\
    len (buf fb) = smem_len (fix_info info) /\
    (forall i b, buf fb !! i = Some b -> b = "000"%byte) /\
    file fb = os.NewFile (fd info) filename.
Proof.
  intros Hi Hs Hx Hy. eexists.
  split; [exact (Open_fits sz initfb filename info Hi Hs Hx Hy)|].
  simpl. repeat split.
  - apply len_replicate. apply Hs.
  - intros i b Hb. apply lookup_replicate in Hb. tauto.
Qed.

(** C7, as stated, fails where [int] is 32 bits wide: a reported width of
    2^31 becomes a negative width, and a reported size of 2^31 makes
    [Open] panic. *)
Lemma Open_int32_overflow :
  is_uint32 (2 ^ 31) /\
  (exists fb,
      Open Int32 (sample_initfb [] 16 (2 ^ 31) 2) "/dev/fb0" = Ok (Some fb, None) /\
      w fb = - 2 ^ 31 /\ w fb <> 2 ^ 31) /\
  Open Int32 (sample_initfb [] (2 ^ 31) 1024 512) "/dev/fb0" = Panicked MakeSliceLen.
Proof.
  split; [unfold is_uint32, maxUint32; lia|]. split.
  - eexists. split; [reflexivity|]. split; [reflexivity|]. simpl. discriminate.
  - reflexivity.
Qed.

(** C8.  When the collaborator returns a non-zero status, [Open] returns
    no surface and the one error [InitErr], whatever the path, the
    status and the rest of what the collaborator reported: no buffer is
    made and the descriptor is not wrapped. *)
Theorem Open_setup_failure sz initfb filename :
  fst (initfb filename) <> 0 ->
  Open sz initfb filename = Ok (None, Some InitErr).
Proof.
  intros Hne. unfold Open. destruct (initfb filename) as [cErr info]. simpl in Hne.
  destruct (Z.eqb_spec cErr 0); [contradiction|]. reflexivity.
Qed.

(* ===================================================================== *)
(** ** The theorems on the sample device *)
(* ===================================================================== *)

Ltac concrete :=
  unfold covers, shape, fits, is_uint32, maxUint32, maxInt, len, colorBytes;
  simpl; lia.


Lemma opened_surface_shape_witness :
  let ops := [CallSet 4 1 0 (color.mkRGBA "010" "020" "030" "255"); CallFlush;
              CallAt 5 5; CallWritePixel (-1) 0 1 "001" "002" "003"; CallClose;
              CallFlush; CallBounds; CallColorModel] in
  let fb0 := mkFrameBuffer (replicate 32 "000"%byte) 2 2 (Some (sample_file [])) in
  is_uint32 32 /\
  Open Int32 (sample_initfb [] 32 2 2) "/dev/fb0" = Ok (Some fb0, None) /\
  len (buf (run Int32 ops fb0)) = 32 /\
  ~ shape (run Int32 ops fb0).
Proof.
  intros ops fb0.
  assert (Hu : is_uint32 (smem_len (fix_info (snd (sample_initfb [] 32 2 2 "/dev/fb0")))))
    by concrete.
  assert (HO : Open Int32 (sample_initfb [] 32 2 2) "/dev/fb0" = Ok (Some fb0, None))
    by reflexivity.
  split; [exact Hu|]. split; [exact HO|].
  destruct (opened_surface_shape Int32 _ _ _ ops Hu HO) as (_ & Hl & _ & _ & Hs).
  split; [exact Hl|]. intros Hsh. apply Hs in Hsh. vm_compute in Hsh. discriminate.
Defined.

Lemma Flush_write_failure_witness :
  let fb := sample_fb [os.Accept; os.Reject 4 5] in
  exists f',
    os.Write (snd (os.Seek (file fb) 0 0)) (buf fb)
      = ((4, Some (PathError "write" "/dev/fb0" (Errno 5))), f') /\
    Flush fb = Return (Some (PathError "write" "/dev/fb0" (Errno 5)))
                 (mkFrameBuffer (buf fb) 2 2 f').
Proof.
  intros fb. eexists. split; [reflexivity|].
  exact (proj1 (Flush_write_failure fb 4 (PathError "write" "/dev/fb0" (Errno 5)) _ eq_refl)).
Defined.

Lemma Open_success_witness :
  fits Int32 16 /\ fits Int32 2 /\
  exists fb,
    Open Int32 (sample_initfb [] 16 2 2) "/dev/fb0" = Ok (Some fb, None) /\
    w fb = 2 /\ h fb = 2 /\ len (buf fb) = 16 /\
    (forall i b, buf fb !! i = Some b -> b = "000"%byte) /\
    file fb = os.NewFile (sample_desc []) "/dev/fb0".
Proof.
  assert (H16 : fits Int32 16) by concrete.
  assert (H2 : fits Int32 2) by concrete.
  split; [exact H16|]. split; [exact H2|].
  exact (Open_success Int32 (sample_initfb [] 16 2 2) "/dev/fb0"
           (mk_info (sample_desc []) (mk_fix 16) (mk_var 2 2)) eq_refl H16 H2 H2).
Defined.

Lemma Open_setup_failure_witness :
  fst (failing_initfb (-1) "/dev/fb0") <> 0 /\
  Open Int64 (failing_initfb (-1)) "/dev/fb0" = Ok (None, Some InitErr).
Proof.
  assert (Hne : fst (failing_initfb (-1) "/dev/fb0") <> 0) by (simpl; lia).
  split; [exact Hne|].
  exact (Open_setup_failure Int64 (failing_initfb (-1)) "/dev/fb0" Hne).
Defined.

(** A 2 by 2 surface as [Open] returns it: 16 zero bytes; [At] reads
    the zero colour; [Flush] hands the device the 16 bytes at offset 0. *)
Example scenario_2x2 :
  exists fb0 fb1 f1,
    Open Int64 (sample_initfb [] 16 2 2) "/dev/fb0" = Ok (Some fb0, None) /\
    buf fb0 = replicate 16 "000"%byte /\
    At Int64 1 0 fb0 = Return (color.mkRGBA "000" "000" "000" "000") fb0 /\
    Flush fb0 = Return None fb1 /\
    file fb1 = Some f1 /\
    os.received (os.desc f1) = [(0, buf fb0)].
Proof. do 3 eexists. repeat split; reflexivity. Qed.

(* ===================================================================== *)
(** ** Addressing without preconditions *)
(* ===================================================================== *)

Lemma wrap_range sz z : minInt sz <= wrap sz z <= maxInt sz.
Proof.
  unfold wrap, minInt, maxInt.
  destruct sz; simpl intBits.
  - pose proof (Z.mod_pos_bound (z + 2 ^ (32 - 1)) (2 ^ 32)). lia.
  - pose proof (Z.mod_pos_bound (z + 2 ^ (64 - 1)) (2 ^ 64)). lia.
Qed.

Lemma wrap_congr sz a : exists q, wrap sz a = a + q * 2 ^ intBits sz.
Proof.
  unfold wrap. exists (- ((a + 2 ^ (intBits sz - 1)) / 2 ^ intBits sz)).
  rewrite Z.mod_eq by (destruct sz; simpl; lia). lia.
Qed.

Lemma wrap_shift sz a q : wrap sz (a + q * 2 ^ intBits sz) = wrap sz a.
Proof.
  unfold wrap.
  replace (a + q * 2 ^ intBits sz + 2 ^ (intBits sz - 1))
    with (a + 2 ^ (intBits sz - 1) + q * 2 ^ intBits sz) by lia.
  rewrite Z.mod_add by (destruct sz; simpl; lia). reflexivity.
Qed.

(** The three wrapped steps of [getPixelStart] come to one wrap of the
    exact formula. *)
Lemma getPixelStart_wrap sz fb x y :
  getPixelStart sz fb x y = wrap sz ((y * w fb + x) * colorBytes).
Proof.
  unfold getPixelStart, int_mul, int_add, colorBytes.
  destruct (wrap_congr sz (y * w fb)) as [q1 ->].
  replace (y * w fb + q1 * 2 ^ intBits sz + x)
    with (y * w fb + x + q1 * 2 ^ intBits sz) by lia.
  rewrite wrap_shift.
  destruct (wrap_congr sz (y * w fb + x)) as [q2 ->].
  replace ((y * w fb + x + q2 * 2 ^ intBits sz) * 4)
    with ((y * w fb + x) * 4 + (4 * q2) * 2 ^ intBits sz) by lia.
  apply wrap_shift.
Qed.

Lemma getPixelStart_mul4 sz fb x y :
  exists k, getPixelStart sz fb x y = 4 * k.
Proof.
  rewrite getPixelStart_wrap. unfold colorBytes.
  destruct (wrap_congr sz ((y * w fb + x) * 4)) as [q ->].
  destruct sz; simpl intBits.
  - exists (y * w fb + x + q * 2 ^ 30). lia.
  - exists (y * w fb + x + q * 2 ^ 62). lia.
Qed.

(** The offsets of the three channels never wrap, and they are within the
    buffer as soon as the red one, the first to be used, is. *)
Lemma channels_of_start sz fb x y :
  let p := getPixelStart sz fb x y in
  int_add sz p red = p + 2 /\ int_add sz p green = p + 1 /\
  int_add sz p blue = p /\
  (0 <= p + 2 -> 0 <= p).
Proof.
  intros p.
  destruct (getPixelStart_mul4 sz fb x y) as [k Hk]. fold p in Hk.
  assert (Hr : minInt sz <= p <= maxInt sz).
  { unfold p. rewrite getPixelStart_wrap. apply wrap_range. }
  assert (Hm : p + 3 <= maxInt sz).
  { revert Hr. unfold minInt, maxInt. destruct sz; simpl intBits; lia. }
  pose proof (minInt_neg sz).
  unfold int_add, red, green, blue.
  rewrite !wrap_small by lia. replace (p + 0) with p by lia.
  repeat split; lia.
Qed.

(* ===================================================================== *)
(** ** Pixel reads on any coordinates *)
(* ===================================================================== *)

Lemma index_out_of_range fb i :
  ~ (0 <= i < len (buf fb)) ->
  index i fb = Panic (IndexOutOfRange i (len (buf fb))) fb.
Proof.
  intros H. unfold index.
  destruct (Z.leb_spec 0 i) as [H0|H0]; [|reflexivity].
  rewrite lookup_ge_None_2; [reflexivity|]. unfold len in H. lia.
Qed.

Lemma addressable_dec sz fb x y : addressable sz fb x y \/ ~ addressable sz fb x y.
Proof. unfold addressable. lia. Qed.

Lemma At_cases sz fb x y :
  (addressable sz fb x y ->
   exists r g b,
     byte_at fb (getPixelStart sz fb x y + 2) = Some r /\
     byte_at fb (getPixelStart sz fb x y + 1) = Some g /\
     byte_at fb (getPixelStart sz fb x y) = Some b /\
     At sz x y fb = Return (color.mkRGBA r g b "000") fb) /\
  (~ addressable sz fb x y ->
   At sz x y fb
   = Panic (IndexOutOfRange (getPixelStart sz fb x y + 2) (len (buf fb))) fb).
Proof.
  destruct (channels_of_start sz fb x y) as (Er & Eg & Eb & Hp).
  unfold addressable, At, bind, gets. rewrite Er, Eg, Eb. split.
  - intros [H0 H2].
    destruct (byte_at_Some fb (getPixelStart sz fb x y + 2)) as [r Hr]; [lia|].
    destruct (byte_at_Some fb (getPixelStart sz fb x y + 1)) as [g Hg]; [lia|].
    destruct (byte_at_Some fb (getPixelStart sz fb x y)) as [b Hb]; [lia|].
    exists r, g, b. repeat split; try assumption.
    rewrite (index_byte_at _ _ _ Hr), (index_byte_at _ _ _ Hg), (index_byte_at _ _ _ Hb).
    reflexivity.
  - intros Hn. rewrite index_out_of_range; [reflexivity|]. lia.
Qed.

(** X2.  For any coordinates and any surface, [At] either returns the
    colour read at the offset [getPixelStart] gives (red at + 2, green
    at + 1, blue at + 0, alpha 0) or panics with the index of the red
    byte, the first one read; in both cases the surface is left as it
    was. *)
Theorem At_reads_or_panics sz fb x y :
  (addressable sz fb x y /\
   exists r g b,
     byte_at fb (getPixelStart sz fb x y + 2) = Some r /\
     byte_at fb (getPixelStart sz fb x y + 1) = Some g /\
     byte_at fb (getPixelStart sz fb x y) = Some b /\
     At sz x y fb = Return (color.mkRGBA r g b "000") fb) \/
  (~ addressable sz fb x y /\
   At sz x y fb
   = Panic (IndexOutOfRange (getPixelStart sz fb x y + 2) (len (buf fb))) fb).
Proof.
  destruct (addressable_dec sz fb x y) as [Ha|Hn].
  - left. split; [exact Ha|]. apply At_cases; exact Ha.
  - right. split; [exact Hn|]. apply At_cases; exact Hn.
Qed.

(** X3.  Coordinates are not checked against the bounds: only the linear
    index y*w + x matters.  Two coordinate pairs with the same linear
    index (such as (x + w, y) and (x, y + 1)) get the same offset from
    [getPixelStart], and [At] behaves identically on them. *)
Theorem same_linear_index sz fb x y x' y' :
  y * w fb + x = y' * w fb + x' ->
  getPixelStart sz fb x y = getPixelStart sz fb x' y' /\
  At sz x y fb = At sz x' y' fb.
Proof.
  intros E.
  assert (Hp : getPixelStart sz fb x y = getPixelStart sz fb x' y')
    by (rewrite !getPixelStart_wrap, E; reflexivity).
  split; [exact Hp|].
  unfold At, bind, gets. rewrite Hp. reflexivity.
Qed.

(** X4.  On a surface whose buffer is exactly w*h*4 bytes long, a
    coordinate with x within the width and y above or below the rows
    (and an offset that [int] can hold) is not addressable: [At] panics
    with an index out of range and leaves the surface as it was. *)
Theorem row_out_of_range_panics sz fb x y :
  shape fb -> len (buf fb) <= maxInt sz ->
  0 <= x < w fb -> (y < 0 \/ h fb <= y) ->
  minInt sz <= (y * w fb + x) * colorBytes <= maxInt sz ->
  At sz x y fb
  = Panic (IndexOutOfRange ((y * w fb + x) * colorBytes + 2) (len (buf fb))) fb.
Proof.
  intros Hs Hm Hx Hy Hr.
  assert (Hp : getPixelStart sz fb x y = (y * w fb + x) * colorBytes)
    by (rewrite getPixelStart_wrap; now apply wrap_small).
  assert (Hn : ~ addressable sz fb x y).
  { unfold addressable. rewrite Hp. unfold shape, colorBytes in *.
    intros [H0 H2]. destruct Hy as [Hy|Hy]; nia. }
  rewrite <- Hp. apply At_cases; exact Hn.
Qed.

(** X5.  On a surface of non-negative width whose buffer covers the
    bounds, the pixels of the
    bounds tile the first w*h*4 bytes of the buffer in row-major order,
    four bytes each: every such byte index belongs to exactly one
    coordinate of the bounds and one of its four slots. *)
Theorem pixels_tile_buffer sz fb i :
  covers sz fb -> 0 <= w fb -> 0 <= i < w fb * h fb * colorBytes ->
  exists x y k,
    inBounds fb x y /\ 0 <= k < colorBytes /\
    i = getPixelStart sz fb x y + k /\
    forall x' y' k',
      inBounds fb x' y' -> 0 <= k' < colorBytes ->
      i = getPixelStart sz fb x' y' + k' ->
      x' = x /\ y' = y /\ k' = k.
Proof.
  intros Hcov Hw0 Hi. unfold colorBytes in *.
  assert (Hw : 0 < w fb).
  { assert (w fb <> 0) by (intros E; rewrite E in Hi; lia). lia. }
  set (n := i / 4).
  assert (Hn : i = 4 * n + i mod 4) by (unfold n; apply Z.div_mod; lia).
  pose proof (Z.mod_pos_bound i 4 ltac:(lia)) as Hk.
  assert (Hxy : n = w fb * (n / w fb) + n mod w fb) by (apply Z.div_mod; lia).
  pose proof (Z.mod_pos_bound n (w fb) Hw) as Hx.
  assert (Hn0 : 0 <= n < w fb * h fb) by lia.
  assert (Hy : 0 <= n / w fb < h fb).
  { split; [apply Z.div_pos; lia|]. apply Z.div_lt_upper_bound; lia. }
  assert (Hin : inBounds fb (n mod w fb) (n / w fb)) by (apply inBounds_iff; lia).
  exists (n mod w fb), (n / w fb), (i mod 4).
  split; [exact Hin|]. split; [exact Hk|].
  assert (Ei : i = getPixelStart sz fb (n mod w fb) (n / w fb) + i mod 4).
  { rewrite (getPixelStart_offset sz fb _ _ Hcov Hin). unfold offset, colorBytes. lia. }
  split; [exact Ei|].
  intros x' y' k' Hin' Hk' E'.
  rewrite (getPixelStart_offset sz fb _ _ Hcov Hin') in E'.
  rewrite (getPixelStart_offset sz fb _ _ Hcov Hin) in Ei.
  destruct (decide ((x', y') = (n mod w fb, n / w fb))) as [Heq|Hne].
  - injection Heq as Hx' Hy'. split; [exact Hx'|]. split; [exact Hy'|].
    rewrite Hx', Hy' in E'. lia.
  - exfalso.
    apply (offset_apart fb _ _ x' y' k' (i mod 4) Hin Hin' Hne); unfold colorBytes; lia.
Qed.

(* ===================================================================== *)
(** ** The handle over the life of a surface *)
(* ===================================================================== *)

Lemma keeps_file_ret {A} (a : A) : keeps_file (ret a).
Proof. intros fb. reflexivity. Qed.

Lemma keeps_file_gets {A} (f : FrameBuffer -> A) : keeps_file (gets f).
Proof. intros fb. reflexivity. Qed.

Lemma keeps_file_index i : keeps_file (index i).
Proof.
  intros fb. unfold index.
  destruct (if 0 <=? i then buf fb !! Z.to_nat i else None); reflexivity.
Qed.

Lemma keeps_file_store i v : keeps_file (store i v).
Proof.
  intros fb. unfold store.
  destruct ((0 <=? i) && (i <? len (buf fb))); reflexivity.
Qed.

Lemma keeps_file_bind {A B} (m : M A) (k : A -> M B) :
  keeps_file m -> (forall a, keeps_file (k a)) -> keeps_file (bind m k).
Proof.
  intros Hm Hk fb. unfold bind. specialize (Hm fb).
  destruct (m fb) as [a fb1|p fb1]; simpl in Hm.
  - rewrite (Hk a fb1). exact Hm.
  - exact Hm.
Qed.

Create HintDb handle.

#[local] Hint Resolve keeps_file_ret keeps_file_gets keeps_file_index
  keeps_file_store keeps_file_bind : handle.

Lemma file_after_At sz x y fb : file (after (At sz x y fb)) = file fb.
Proof. revert fb. change (keeps_file (At sz x y)). unfold At. auto 10 with handle. Qed.

Lemma file_after_WritePixel sz p x y r g b fb :
  file (after (WritePixel sz p x y r g b fb)) = file fb.
Proof.
  revert fb. change (keeps_file (WritePixel sz p x y r g b)).
  unfold WritePixel, WritePixel_stores. auto 10 with handle.
Qed.

Lemma file_after_Set sz p x y {C} `{color.Color C} (c : C) fb :
  file (after (Set_ sz p x y c fb)) = file fb.
Proof.
  revert fb. change (keeps_file (Set_ sz p x y c)). unfold Set_.
  apply keeps_file_bind; [auto with handle|]. intros _.
  destruct (color.Color_RGBA c) as [[[r g] b] a].
  unfold WritePixel_stores. auto 10 with handle.
Qed.

(** X10.  Nothing reaches the device until [Flush] is called: a client
    that calls neither [Flush] nor [Close], whatever pixel reads and
    writes it makes (panicking ones included), leaves the handle, and
    with it what the device has received, exactly as it was. *)
Theorem no_io_without_Flush sz (ops : list op) fb :
  forallb no_io ops = true ->
  file (run sz ops fb) = file fb.
Proof.
  unfold run. revert fb. induction ops as [|o ops IH]; intros fb Hall; [reflexivity|].
  simpl in Hall. apply andb_true_iff in Hall as [Ho Hops].
  simpl. rewrite (IH _ Hops).
  destruct o; cbn [step]; try reflexivity; try discriminate.
  - apply file_after_At.
  - apply file_after_Set.
  - apply file_after_WritePixel.
Qed.

(** X11.  On an open handle whose driver lets the seek and the write
    through, [Flush] returns no error and the device receives exactly
    the buffer, as one chunk: at offset 0, or at the end of the file
    when the descriptor was opened for appending (the seek to 0 then has
    no effect on where the bytes go).  The cursor ends just past the
    chunk; the buffer and the dimensions are unchanged. *)
Theorem Flush_delivers_buffer fb f :
  file fb = Some f -> os.closed f = false ->
  accepting (os.desc f) 0 -> accepting (os.desc f) 1 ->
  exists f2 at_,
    Flush fb = Return None (mkFrameBuffer (buf fb) (h fb) (w fb) (Some f2)) /\
    os.received (os.desc f2) = os.received (os.desc f) ++ [(at_, buf fb)] /\
    os.cursor (os.desc f2) = at_ + len (buf fb) /\
    os.closed f2 = false /\
    (os.append (os.desc f) = false -> at_ = 0) /\
    (os.append (os.desc f) = true -> at_ = os.size (os.desc f)).
Proof.
  intros Hf Ho Ha0 Ha1.
  destruct (Flush_open fb f Hf) as (f2 & _ & _ & Hcl & _ & Hacc).
  destruct (Hacc Ho Ha0 Ha1) as (HF & Hrec & Hcur).
  exists f2, (os.lands (os.desc f) 0).
  split; [exact HF|]. split; [exact Hrec|]. split; [exact Hcur|].
  split; [congruence|].
  unfold os.lands. split; intros ->; reflexivity.
Qed.

Lemma step_on_closed sz fb f o :
  file fb = Some f -> os.closed f = true ->
  exists f',
    file (step sz fb o) = Some f' /\ os.closed f' = true /\
    os.desc f' = os.desc f /\ os.name f' = os.name f.
Proof.
  intros Hf Hcl.
  destruct o; cbn [step];
    rewrite ?file_after_At, ?file_after_Set, ?file_after_WritePixel;
    try (exists f; auto; fail).
  - rewrite Flush_unfold, Hf. destruct f as [d nm cl cs]. simpl in Hcl. subst cl.
    simpl. eexists. split; [reflexivity|]. auto.
  - unfold Close, on_file. rewrite Hf. destruct f as [d nm cl cs]. simpl in Hcl. subst cl.
    simpl. eexists. split; [reflexivity|]. auto.
Qed.

(** X13.  A closed handle stays closed: whatever the client calls
    afterwards (pixel operations, [Flush], [Close], in any number and
    order), the handle remains closed and the descriptor behind it is as
    it was: the device receives nothing more and its cursor does not
    move. *)
Theorem closed_handle_stays_closed sz (ops : list op) fb f :
  file fb = Some f -> os.closed f = true ->
  exists f',
    file (run sz ops fb) = Some f' /\ os.closed f' = true /\
    os.desc f' = os.desc f /\ os.name f' = os.name f.
Proof.
  unfold run. revert fb f. induction ops as [|o ops IH]; intros fb f Hf Hcl.
  - exists f. auto.
  - destruct (step_on_closed sz fb f o Hf Hcl) as (f1 & Hf1 & Hcl1 & Hd1 & Hn1).
    destruct (IH _ _ Hf1 Hcl1) as (f' & Hf' & Hcl' & Hd' & Hn').
    exists f'. simpl. split; [exact Hf'|]. split; [exact Hcl'|].
    split; congruence.
Qed.

(** X14.  [Close] on an open handle closes it, whatever the driver
    answers, and touches neither the buffer nor what the device has
    received.  From then on [Flush] returns the error "file already
    closed" wrapped for a write, and a second [Close] returns it wrapped
    for a close; neither hands the device anything. *)
Theorem Close_then_Flush_fails fb f :
  file fb = Some f -> os.closed f = false ->
  exists r fb1 f1 fb2 fb3,
    Close fb = Return r fb1 /\
    buf fb1 = buf fb /\ file fb1 = Some f1 /\ os.closed f1 = true /\
    os.received (os.desc f1) = os.received (os.desc f) /\
    Flush fb1 = Return (Some (PathError "write" (os.name f) os.ErrClosed)) fb2 /\
    Close fb1 = Return (Some (PathError "close" (os.name f) os.ErrClosed)) fb3 /\
    buf fb2 = buf fb /\
    (forall f2, file fb2 = Some f2 -> os.desc f2 = os.desc f1) /\
    (forall f3, file fb3 = Some f3 -> os.desc f3 = os.desc f1).
Proof.
  intros Hf Ho. destruct fb as [l hh ww fl]. simpl in Hf. subst fl.
  destruct f as [[n ap sz0 cur rec rs] nm cl cs]. simpl in Ho. subst cl.
  destruct rs as [|[|k e] rs];
    (do 5 eexists; split; [reflexivity|];
     do 4 (split; [reflexivity|]);
     split; [rewrite Flush_unfold; reflexivity|];
     split; [reflexivity|]; split; [reflexivity|];
     split; intros ? E; inversion E; reflexivity).
Qed.

(** X19.  Two [Flush] calls in a row, with no pixel write in between, on
    an open handle whose driver lets the four calls through, both return
    no error and hand the device the same bytes twice, each time as one
    chunk.  Both chunks are at offset 0, so that the second rewrites the
    image in place, unless the descriptor was opened for appending: then
    the first is at the end of the file and the second follows it. *)
Theorem Flush_twice_same_image fb f :
  file fb = Some f -> os.closed f = false ->
  accepting (os.desc f) 0 -> accepting (os.desc f) 1 ->
  accepting (os.desc f) 2 -> accepting (os.desc f) 3 ->
  exists fb1 fb2 f2 a1 a2,
    Flush fb = Return None fb1 /\
    Flush fb1 = Return None fb2 /\
    buf fb2 = buf fb /\
    file fb2 = Some f2 /\
    os.received (os.desc f2)
    = os.received (os.desc f) ++ [(a1, buf fb); (a2, buf fb)] /\
    (os.append (os.desc f) = false -> a1 = 0 /\ a2 = 0) /\
    (os.append (os.desc f) = true ->
       a1 = os.size (os.desc f) /\ a2 = os.size (os.desc f) + len (buf fb)).
Proof.
  intros Hf Ho A0 A1 A2 A3.
  destruct fb as [l hh ww fl]. simpl in Hf. subst fl.
  destruct f as [[n ap sz0 cur rec rs] nm cl cs]. simpl in Ho. subst cl.
  assert (Hmax : Z.max sz0 (sz0 + len l) = sz0 + len l) by (unfold len; lia).
  unfold accepting in A0, A1, A2, A3. simpl in A0, A1, A2, A3.
  destruct ap;
    (destruct rs as [|[|k0 e0] [|[|k1 e1] [|[|k2 e2] [|[|k3 e3] rs]]]];
     simpl in A0, A1, A2, A3; try contradiction;
     do 5 eexists;
     (split; [rewrite Flush_unfold; reflexivity|]);
     (split; [rewrite Flush_unfold; reflexivity|]);
     (split; [reflexivity|]); (split; [reflexivity|]);
     (split; [simpl; unfold os.lands; simpl; rewrite <- app_assoc; reflexivity|]);
     split; intros E; try discriminate E; split; try reflexivity; exact Hmax).
Qed.

(* ===================================================================== *)
(** ** Open and the bounds *)
(* ===================================================================== *)

Lemma int_of_uint32_high u :
  2 ^ 31 <= u <= maxUint32 -> int_of_uint32 Int32 u = u - 2 ^ 32.
Proof.
  unfold maxUint32, int_of_uint32, wrap. simpl intBits. intros Hu.
  replace (u + 2 ^ (32 - 1)) with ((u - 2 ^ 31) + 1 * 2 ^ 32) by lia.
  rewrite Z.mod_add by lia. rewrite Z.mod_small; lia.
Qed.

Lemma make_bytes_too_long sz n :
  is_uint32 n -> maxInt sz < n -> make_bytes sz n = Panicked MakeSliceLen.
Proof.
  intros Hu Hn. unfold make_bytes.
  destruct sz.
  - rewrite int_of_uint32_high
      by (revert Hu Hn; unfold is_uint32, maxUint32, maxInt; simpl; lia).
    destruct (Z.ltb_spec (n - 2 ^ 32) 0); [reflexivity|].
    revert Hu. unfold is_uint32, maxUint32. lia.
  - exfalso. revert Hu Hn. unfold is_uint32, maxUint32, maxInt. simpl. lia.
Qed.

(** X15.  [Open] has three outcomes and no other, decided by the status
    and the reported size alone: a non-zero status gives [InitErr] and no
    surface; status 0 with a size that [int] can hold gives a surface
    with a zeroed buffer of that size and no error; status 0 with a
    larger size (possible only where [int] is 32 bits wide) panics in
    [make].  It never returns both a surface and an error, nor neither. *)
Theorem Open_outcomes sz initfb filename :
  is_uint32 (smem_len (fix_info (snd (initfb filename)))) ->
  let status := fst (initfb filename) in
  let size := smem_len (fix_info (snd (initfb filename))) in
  (status <> 0 /\ Open sz initfb filename = Ok (None, Some InitErr)) \/
  (status = 0 /\ size <= maxInt sz /\
   exists fb,
     Open sz initfb filename = Ok (Some fb, None) /\
     buf fb = replicate (Z.to_nat size) "000"%byte) \/
  (status = 0 /\ maxInt sz < size /\ sz = Int32 /\
   Open sz initfb filename = Panicked MakeSliceLen).
Proof.
  intros Hu status size. subst status size. unfold Open.
  destruct (initfb filename) as [cErr info]. simpl in *.
  destruct (Z.eqb_spec cErr 0) as [->|Hne]; simpl; [|left; auto].
  right. destruct (Z_le_gt_dec (smem_len (fix_info info)) (maxInt sz)) as [Hle|Hgt].
  - left. split; [reflexivity|]. split; [exact Hle|].
    unfold make_bytes. rewrite (int_of_uint32_fits sz) by (split; assumption).
    destruct (Z.ltb_spec (smem_len (fix_info info)) 0);
      [unfold is_uint32 in Hu; lia|].
    eexists. split; reflexivity.
  - right. split; [reflexivity|]. split; [lia|].
    rewrite make_bytes_too_long by (assumption || lia).
    split; [|reflexivity].
    destruct sz; [reflexivity|].
    exfalso. revert Hu Hgt. unfold is_uint32, maxUint32, maxInt. simpl. lia.
Qed.

(** X16.  Where [int] is 32 bits wide, a reported horizontal resolution
    of 2^31 or more opens (the size permitting) with the negative width
    xres - 2^32, and no coordinate lies within the bounds of that
    surface. *)
Theorem Open_Int32_negative_width initfb filename info :
  initfb filename = (0, info) ->
  fits Int32 (smem_len (fix_info info)) ->
  2 ^ 31 <= xres (var_info info) <= maxUint32 ->
  exists fb,
    Open Int32 initfb filename = Ok (Some fb, None) /\
    w fb = xres (var_info info) - 2 ^ 32 /\ w fb < 0 /\
    forall x y, ~ inBounds fb x y.
Proof.
  intros Hi Hs Hx. unfold Open, make_bytes. rewrite Hi. simpl.
  rewrite (int_of_uint32_fits Int32 _ Hs), (int_of_uint32_high _ Hx).
  destruct Hs as [[Hs0 _] _].
  destruct (Z.ltb_spec (smem_len (fix_info info)) 0); [lia|].
  eexists. split; [reflexivity|]. simpl.
  unfold maxUint32 in Hx. split; [reflexivity|]. split; [lia|].
  intros x y Hin. apply inBounds_iff in Hin. simpl in Hin. lia.
Qed.

(** X17.  [Bounds()] of a surface that [Open] returned for a report that
    [int] can hold is the rectangle from (0, 0) to the reported
    resolution, and it stays that rectangle after any sequence of
    operations. *)
Theorem Bounds_fixed_at_Open sz initfb filename info (ops : list op) :
  initfb filename = (0, info) ->
  fits sz (smem_len (fix_info info)) ->
  fits sz (xres (var_info info)) ->
  fits sz (yres (var_info info)) ->
  exists fb0,
    Open sz initfb filename = Ok (Some fb0, None) /\
    Bounds (run sz ops fb0)
    = image.mkRectangle (image.mkPoint 0 0)
        (image.mkPoint (xres (var_info info)) (yres (var_info info))).
Proof.
  intros Hi Hs Hx Hy. eexists.
  split; [exact (Open_fits sz initfb filename info Hi Hs Hx Hy)|].
  unfold Bounds.
  destruct (run_dims sz ops
              (mkFrameBuffer
                 (replicate (Z.to_nat (smem_len (fix_info info))) "000"%byte)
                 (yres (var_info info)) (xres (var_info info))
                 (os.NewFile (fd info) filename))) as (_ & -> & ->).
  reflexivity.
Qed.

(** X18.  [Open] does not look at the descriptor: with status 0 and a
    negative descriptor number it still returns a surface and no error,
    whose handle is nil; [Flush] and [Close] on it return "invalid
    argument" and leave the surface as it is. *)
Theorem Open_invalid_descriptor sz initfb filename info :
  initfb filename = (0, info) ->
  fits sz (smem_len (fix_info info)) ->
  os.num (fd info) < 0 ->
  exists fb,
    Open sz initfb filename = Ok (Some fb, None) /\
    file fb = None /\
    Flush fb = Return (Some os.ErrInvalid) fb /\
    Close fb = Return (Some os.ErrInvalid) fb.
Proof.
  intros Hi Hs Hfd. unfold Open, make_bytes. rewrite Hi. simpl.
  rewrite (int_of_uint32_fits sz _ Hs).
  destruct Hs as [[Hs0 _] _].
  destruct (Z.ltb_spec (smem_len (fix_info info)) 0); [lia|].
  unfold os.NewFile. destruct (Z.ltb_spec (os.num (fd info)) 0); [|lia].
  eexists. split; [reflexivity|]. split; [reflexivity|].
  split; [rewrite Flush_unfold; reflexivity | reflexivity].
Qed.

(* ===================================================================== *)
(** ** More instances on the sample device *)
(* ===================================================================== *)

Lemma same_linear_index_witness :
  0 * w (sample_fb []) + 2 = 1 * w (sample_fb []) + 0 /\
  getPixelStart Int64 (sample_fb []) 2 0 = getPixelStart Int64 (sample_fb []) 0 1 /\
  At Int64 2 0 (sample_fb []) = At Int64 0 1 (sample_fb []).
Proof.
  assert (E : 0 * w (sample_fb []) + 2 = 1 * w (sample_fb []) + 0) by reflexivity.
  split; [exact E|].
  exact (same_linear_index Int64 (sample_fb []) 2 0 0 1 E).
Defined.

Lemma row_out_of_range_panics_witness :
  shape (sample_fb []) /\ len (buf (sample_fb [])) <= maxInt Int32 /\
  At Int32 1 2 (sample_fb [])
  = Panic (IndexOutOfRange ((2 * w (sample_fb []) + 1) * colorBytes + 2)
             (len (buf (sample_fb [])))) (sample_fb []).
Proof.
  assert (Hs : shape (sample_fb [])) by reflexivity.
  assert (Hm : len (buf (sample_fb [])) <= maxInt Int32) by concrete.
  split; [exact Hs|]. split; [exact Hm|].
  apply (row_out_of_range_panics Int32 (sample_fb []) 1 2 Hs Hm).
  - simpl; lia.
  - right. simpl; lia.
  - unfold minInt, maxInt, colorBytes. simpl. lia.
Defined.

Lemma pixels_tile_buffer_witness :
  covers Int64 (sample_fb []) /\
  exists x y k,
    inBounds (sample_fb []) x y /\ 0 <= k < colorBytes /\
    13 = getPixelStart Int64 (sample_fb []) x y + k /\
    forall x' y' k',
      inBounds (sample_fb []) x' y' -> 0 <= k' < colorBytes ->
      13 = getPixelStart Int64 (sample_fb []) x' y' + k' ->
      x' = x /\ y' = y /\ k' = k.
Proof.
  assert (Hc : covers Int64 (sample_fb [])) by concrete.
  split; [exact Hc|].
  apply (pixels_tile_buffer Int64 (sample_fb []) 13 Hc).
  - simpl; lia.
  - unfold colorBytes. simpl. lia.
Defined.

Lemma no_io_without_Flush_witness :
  let ops := [CallSet 4 1 0 (color.mkRGBA "010" "020" "030" "255"); CallAt 5 5;
              CallWritePixel (-1) 0 1 "001" "002" "003"; CallBounds] in
  forallb no_io ops = true /\
  file (run Int64 ops (sample_fb [])) = file (sample_fb []).
Proof.
  intros ops.
  assert (H : forallb no_io ops = true) by reflexivity.
  split; [exact H|].
  exact (no_io_without_Flush Int64 ops (sample_fb []) H).
Defined.

Lemma Flush_delivers_buffer_witness :
  file appending_fb = Some appending_file /\
  os.closed appending_file = false /\
  exists f2 at_,
    Flush appending_fb
    = Return None (mkFrameBuffer (buf appending_fb) 2 2 (Some f2)) /\
    os.received (os.desc f2) = [(at_, buf appending_fb)] /\
    os.cursor (os.desc f2) = at_ + 16 /\
    os.closed f2 = false /\
    (os.append (os.desc appending_file) = false -> at_ = 0) /\
    (os.append (os.desc appending_file) = true -> at_ = 100).
Proof.
  split; [reflexivity|]. split; [reflexivity|].
  exact (Flush_delivers_buffer appending_fb appending_file eq_refl eq_refl I I).
Defined.

Lemma closed_handle_stays_closed_witness :
  let ops := [CallFlush; CallWritePixel 8 0 1 "001" "002" "003"; CallClose; CallFlush] in
  os.closed (os.mkFile (sample_desc []) "/dev/fb0" true [os.CallClose]) = true /\
  exists f',
    file (run Int64 ops closed_fb) = Some f' /\ os.closed f' = true /\
    os.desc f' = sample_desc [] /\ os.name f' = "/dev/fb0"%string.
Proof.
  intros ops. split; [reflexivity|].
  exact (closed_handle_stays_closed Int64 ops closed_fb _ eq_refl eq_refl).
Defined.

Lemma Close_then_Flush_fails_witness :
  os.closed (sample_file [os.Reject 0 5]) = false /\
  exists r fb1 f1 fb2 fb3,
    Close (sample_fb [os.Reject 0 5]) = Return r fb1 /\
    buf fb1 = buf (sample_fb [os.Reject 0 5]) /\
    file fb1 = Some f1 /\ os.closed f1 = true /\
    os.received (os.desc f1) = [] /\
    Flush fb1 = Return (Some (PathError "write" "/dev/fb0" os.ErrClosed)) fb2 /\
    Close fb1 = Return (Some (PathError "close" "/dev/fb0" os.ErrClosed)) fb3 /\
    buf fb2 = buf (sample_fb [os.Reject 0 5]) /\
    (forall f2, file fb2 = Some f2 -> os.desc f2 = os.desc f1) /\
    (forall f3, file fb3 = Some f3 -> os.desc f3 = os.desc f1).
Proof.
  split; [reflexivity|].
  exact (Close_then_Flush_fails (sample_fb [os.Reject 0 5])
           (sample_file [os.Reject 0 5]) eq_refl eq_refl).
Defined.

Lemma Open_outcomes_witness :
  is_uint32 (2 ^ 31) /\
  Open Int32 (sample_initfb [] (2 ^ 31) 1024 512) "/dev/fb0" = Panicked MakeSliceLen.
Proof.
  assert (Hu : is_uint32 (smem_len (fix_info (snd (sample_initfb [] (2 ^ 31) 1024 512
                                                      "/dev/fb0"))))) by concrete.
  split; [exact Hu|].
  destruct (Open_outcomes Int32 (sample_initfb [] (2 ^ 31) 1024 512) "/dev/fb0" Hu)
    as [[Hne _]|[(_ & Hle & _)|(_ & _ & _ & HO)]].
  - exfalso. apply Hne. reflexivity.
  - exfalso. revert Hle. unfold maxInt. simpl. lia.
  - exact HO.
Defined.

Lemma Open_Int32_negative_width_witness :
  fits Int32 16 /\ 2 ^ 31 <= 2 ^ 31 <= maxUint32 /\
  exists fb,
    Open Int32 (sample_initfb [] 16 (2 ^ 31) 2) "/dev/fb0" = Ok (Some fb, None) /\
    w fb = 2 ^ 31 - 2 ^ 32 /\ w fb < 0 /\
    forall x y, ~ inBounds fb x y.
Proof.
  assert (H16 : fits Int32 16) by concrete.
  assert (Hx : 2 ^ 31 <= 2 ^ 31 <= maxUint32) by (unfold maxUint32; lia).
  split; [exact H16|]. split; [exact Hx|].
  exact (Open_Int32_negative_width (sample_initfb [] 16 (2 ^ 31) 2) "/dev/fb0"
           (mk_info (sample_desc []) (mk_fix 16) (mk_var (2 ^ 31) 2)) eq_refl H16 Hx).
Defined.

Lemma Bounds_fixed_at_Open_witness :
  let ops := [CallSet 4 1 0 (color.mkRGBA "010" "020" "030" "255"); CallFlush;
              CallAt 5 5; CallClose] in
  fits Int64 16 /\ fits Int64 2 /\
  exists fb0,
    Open Int64 (sample_initfb [] 16 2 2) "/dev/fb0" = Ok (Some fb0, None) /\
    Bounds (run Int64 ops fb0)
    = image.mkRectangle (image.mkPoint 0 0) (image.mkPoint 2 2).
Proof.
  intros ops.
  assert (H16 : fits Int64 16) by concrete.
  assert (H2 : fits Int64 2) by concrete.
  split; [exact H16|]. split; [exact H2|].
  exact (Bounds_fixed_at_Open Int64 (sample_initfb [] 16 2 2) "/dev/fb0"
           (mk_info (sample_desc []) (mk_fix 16) (mk_var 2 2)) ops eq_refl H16 H2 H2).
Defined.

Lemma Open_invalid_descriptor_witness :
  fits Int64 16 /\ os.num (os.mkDesc (-1) false 16 0 [] []) < 0 /\
  exists fb,
    Open Int64 bad_fd_initfb "/dev/fb0" = Ok (Some fb, None) /\
    file fb = None /\
    Flush fb = Return (Some os.ErrInvalid) fb /\
    Close fb = Return (Some os.ErrInvalid) fb.
Proof.
  assert (H16 : fits Int64 16) by concrete.
  assert (Hfd : os.num (os.mkDesc (-1) false 16 0 [] []) < 0) by (simpl; lia).
  split; [exact H16|]. split; [exact Hfd|].
  exact (Open_invalid_descriptor Int64 bad_fd_initfb "/dev/fb0"
           (mk_info (os.mkDesc (-1) false 16 0 [] []) (mk_fix 16) (mk_var 2 2)) eq_refl H16 Hfd).
Defined.

Lemma Flush_twice_same_image_witness :
  file (sample_fb []) = Some (sample_file []) /\
  os.closed (sample_file []) = false /\
  exists fb1 fb2 f2 a1 a2,
    Flush (sample_fb []) = Return None fb1 /\
    Flush fb1 = Return None fb2 /\
    buf fb2 = buf (sample_fb []) /\
    file fb2 = Some f2 /\
    os.received (os.desc f2) = [(a1, buf (sample_fb [])); (a2, buf (sample_fb []))] /\
    (os.append (os.desc (sample_file [])) = false -> a1 = 0 /\ a2 = 0) /\
    (os.append (os.desc (sample_file [])) = true -> a1 = 16 /\ a2 = 16 + 16).
Proof.
  split; [reflexivity|]. split; [reflexivity|].
  exact (Flush_twice_same_image (sample_fb []) (sample_file []) eq_refl eq_refl I I I I).
Defined.

